(** * docusaurus-plugin-openapi: the plugin's lifecycle hooks

    A shallow embedding of [src/index.ts].  The plugin is a function
    [pluginOpenAPI (context, opts)] that merges the user's options over
    [DEFAULT_OPTIONS] and returns an object of lifecycle hooks closing over
    the merged record.  The hooks talk to the host through [createData] and
    [addRoute]; here these are operations of a small state monad over the
    host's build state.  Host and platform primitives whose code is not part
    of the plugin ([docuHash], [normalizeUrl], [JSON.stringify],
    [fs.existsSync], [loadOpenapi], [require.resolve]) are section variables. *)

From Stdlib Require Import ZArith Ascii.
From stdpp Require Import base option list gmap strings.

Open Scope string_scope.
Open Scope list_scope.
Set Warnings "-register-all".

(** ** JavaScript values *)

(** The fragment of JavaScript values an option of type [any] may hold.
    Numbers are only ever tested for truthiness, so an integer stands for
    every finite number and [JsNaN] for NaN. *)
Inductive JsValue :=
| JsUndefined
| JsNull
| JsBool (b : bool)
| JsNumber (n : Z)
| JsNaN
| JsString (s : string)
| JsObject (props : list (string * JsValue)).

(** ToBoolean: what [if (v)] tests. *)
Definition truthy (v : JsValue) : bool :=
  match v with
  | JsUndefined | JsNull | JsNaN => false
  | JsBool b => b
  | JsNumber n => negb (n =? 0)%Z
  | JsString s => negb (String.eqb s "")
  | JsObject _ => true
  end.

Inductive JsError :=
| TypeError (msg : string)
| HostError (reason : JsValue).

(** The settled state of a promise. *)
Inductive Promise (A : Type) :=
| Resolved (a : A)
| Rejected (e : JsError).
Arguments Resolved {A} a.
Arguments Rejected {A} e.

(** ** Options *)

(** An entry of a remark/rehype plugin list: a bare plugin, or the pair
    [[plugin, pluginOptions]]. *)
Inductive PluginEntry :=
| PluginFn (plugin : string)
| PluginWith (plugin : string) (pluginOptions : JsValue).

(** The imported [admonitions] function of "remark-admonitions". *)
Definition admonitions_plugin : string := "remark-admonitions".

Record PluginOptions := mkOptions {
  routeBasePath : string;
  openapiPath : string;
  apiLayoutComponent : string;
  apiItemComponent : string;
  remarkPlugins : list PluginEntry;
  rehypePlugins : list PluginEntry;
  admonitions : JsValue;
  sidebarLabel : string;
  pageId : string;
}.

(** [Partial<PluginOptions>]: every key may be absent. *)
Record PartialOptions := mkPartial {
  opt_routeBasePath : option string;
  opt_openapiPath : option string;
  opt_apiLayoutComponent : option string;
  opt_apiItemComponent : option string;
  opt_remarkPlugins : option (list PluginEntry);
  opt_rehypePlugins : option (list PluginEntry);
  opt_admonitions : option JsValue;
  opt_sidebarLabel : option string;
  opt_pageId : option string;
}.

Definition DEFAULT_OPTIONS : PluginOptions := {|
  routeBasePath := "api";
  openapiPath := "";
  apiLayoutComponent := "@theme/ApiPage";
  apiItemComponent := "@theme/ApiItem";
  remarkPlugins := [];
  rehypePlugins := [];
  admonitions := JsObject [];
  sidebarLabel := "summary";
  pageId := "summary";
|}.

(** [{}]: the user configures nothing. *)
Definition no_options : PartialOptions := {|
  opt_routeBasePath := None;
  opt_openapiPath := None;
  opt_apiLayoutComponent := None;
  opt_apiItemComponent := None;
  opt_remarkPlugins := None;
  opt_rehypePlugins := None;
  opt_admonitions := None;
  opt_sidebarLabel := None;
  opt_pageId := None;
|}.

(** [{ ...d, ...opts }]: a key present in [opts] wins. *)
Definition spread (d : PluginOptions) (opts : PartialOptions) : PluginOptions := {|
  routeBasePath := default (routeBasePath d) (opt_routeBasePath opts);
  openapiPath := default (openapiPath d) (opt_openapiPath opts);
  apiLayoutComponent := default (apiLayoutComponent d) (opt_apiLayoutComponent opts);
  apiItemComponent := default (apiItemComponent d) (opt_apiItemComponent opts);
  remarkPlugins := default (remarkPlugins d) (opt_remarkPlugins opts);
  rehypePlugins := default (rehypePlugins d) (opt_rehypePlugins opts);
  admonitions := default (admonitions d) (opt_admonitions opts);
  sidebarLabel := default (sidebarLabel d) (opt_sidebarLabel opts);
  pageId := default (pageId d) (opt_pageId opts);
|}.

(** [options.remarkPlugins = v] *)
Definition set_remarkPlugins (v : list PluginEntry) (o : PluginOptions) : PluginOptions := {|
  routeBasePath := routeBasePath o;
  openapiPath := openapiPath o;
  apiLayoutComponent := apiLayoutComponent o;
  apiItemComponent := apiItemComponent o;
  remarkPlugins := v;
  rehypePlugins := rehypePlugins o;
  admonitions := admonitions o;
  sidebarLabel := sidebarLabel o;
  pageId := pageId o;
|}.

Record LoadContext := mkContext {
  baseUrl : string;
  generatedFilesDir : string;
}.

(** What the hooks close over: the variables of [pluginOpenAPI]'s body. *)
Record Plugin := mkPlugin {
  name : string;
  options : PluginOptions;
  homePageDocsRoutePath : string;
  context : LoadContext;
}.

(** The body of [pluginOpenAPI] before its [return]: [merged] is the record
    right after the spread (line 41); the [if] of lines 45-49 then assigns
    [options.remarkPlugins]. *)
Definition merged (opts : PartialOptions) : PluginOptions :=
  spread DEFAULT_OPTIONS opts.

Definition pluginOpenAPI (ctx : LoadContext) (opts : PartialOptions) : Plugin :=
  let options0 := merged opts in
  let home := if decide (routeBasePath options0 = "") then "/" else routeBasePath options0 in
  let options1 :=
    if truthy (admonitions options0)
    then set_remarkPlugins
           (remarkPlugins options0 ++ [PluginWith admonitions_plugin (admonitions options0)])
           options0
    else options0 in
  {| name := "docusaurus-plugin-openapi";
     options := options1;
     homePageDocsRoutePath := home;
     context := ctx |}.

(** ** Parsed content *)

(** Modelled from the spec: the [ApiItem] and [ApiSection] types of
    [./types], which is not part of the sources.  An item has a permalink, a
    hash identifier, a free-text description and a deprecation flag; its
    remaining own properties (among them the one [sidebarLabel] selects) are
    kept by name in [props]. *)
Record ApiItem := mkItem {
  permalink : string;
  hashId : string;
  description : string;
  deprecated : option bool;
  props : list (string * JsValue);
}.

Record ApiSection := mkSection {
  title : string;
  items : list ApiItem;
}.

Record LoadedContent := mkContent {
  openapiData : list ApiSection;
}.

Definition of_option_bool (b : option bool) : JsValue :=
  match b with Some b => JsBool b | None => JsUndefined end.

Fixpoint assoc (key : string) (l : list (string * JsValue)) : JsValue :=
  match l with
  | [] => JsUndefined
  | (k, v) :: l => if decide (k = key) then v else assoc key l
  end.

(** [item[key]], for the item's own properties; what a key inherited from
    [Object.prototype] yields is not modelled. *)
Definition item_get (item : ApiItem) (key : string) : JsValue :=
  if decide (key = "permalink") then JsString (permalink item)
  else if decide (key = "hashId") then JsString (hashId item)
  else if decide (key = "description") then JsString (description item)
  else if decide (key = "deprecated") then of_option_bool (deprecated item)
  else assoc key (props item).

(** ** Sidebar *)

Module SidebarLink.
Record t := mk {
  href : string;
  label : JsValue;
  type : string;
  deprecated : option bool;
}.
End SidebarLink.

Module SidebarCategory.
Record t := mk {
  collapsed : bool;
  type : string;
  label : string;
  items : list SidebarLink.t;
}.
End SidebarCategory.

(** The object serialized into the aggregate metadata artifact. *)
Record DocsMetadata := mkMetadata {
  docsSidebars : gmap string (list SidebarCategory.t);
  permalinkToSidebar : gmap string string;
}.

(** ** Routes *)

Inductive Module_ :=
| ModulePath (p : string)
| ModuleObject (import_ : bool) (p : string).

Inductive RouteConfig := mkRoute {
  path : string;
  component : string;
  exact : option bool;
  routes : option (list RouteConfig);
  modules : list (string * Module_);
}.

(** A JavaScript array: [None] is a hole, the slot [delete arr[i]] leaves
    behind.  An array without holes is the image of a list under [dense]. *)
Definition dense {A} (l : list A) : list (option A) := Some <$> l.

(** [arr.filter(p)]: holes are skipped, the result has none. *)
Definition js_filter {A} (p : A → bool) (arr : list (option A)) : list A :=
  List.filter p (omap id arr).

(** [arr.findIndex(p)], scanning from index [i]: every index below the
    length is visited, a hole is read as [undefined], and a callback that
    reads a property of [undefined] throws.  [-1] when nothing matches. *)
Fixpoint js_findIndex_from {A} (p : A → bool) (arr : list (option A)) (i : Z)
  : Promise Z :=
  match arr with
  | [] => Resolved (-1)%Z
  | None :: _ => Rejected (TypeError "Cannot read property 'component' of undefined")
  | Some x :: arr => if p x then Resolved i else js_findIndex_from p arr (i + 1)%Z
  end.

Definition js_findIndex {A} (p : A → bool) (arr : list (option A)) : Promise Z :=
  js_findIndex_from p arr 0%Z.

(** [delete arr[i]]: the slot becomes a hole and the length stays; an index
    that names no slot (such as [-1]) deletes nothing. *)
Definition js_delete {A} (i : Z) (arr : list (option A)) : list (option A) :=
  if decide (0 ≤ i)%Z then <[Z.to_nat i := None]> arr else arr.

(** [acc[k] = v] on a plain object holding strings: an own property is
    created or overwritten, except that the inherited [__proto__] setter
    swallows the assignment of a primitive.  The map records which keys the
    object has and their values; the order in which the object enumerates
    its keys, which [JSON.stringify] follows, is not recorded. *)
Definition js_set (k v : string) (acc : gmap string string) : gmap string string :=
  if decide (k = "__proto__") then acc else <[k := v]> acc.

(** ** The host's build state *)

Record Host := mkHost {
  created : list (string * string);   (* createData calls: file name, content *)
  added : list RouteConfig;           (* addRoute calls *)
}.

Definition M (A : Type) : Type := Host → A * Host.

#[global] Instance M_ret : MRet M := λ A a h, (a, h).
#[global] Instance M_bind : MBind M := λ A B f m h, let (a, h') := m h in f a h'.

Definition exec {A} (m : M A) (h : Host) : Host := snd (m h).

(** ** Webpack configuration *)

(** An entry of a rule's [use] list: a loader object obtained from the
    host's accessors, or the literal [{ loader, options: { remarkPlugins,
    rehypePlugins } }]. *)
Inductive Loader :=
| HostLoader (l : JsValue)
| LoaderWithOptions (loader : string) (remark rehype : list PluginEntry).

Record RuleSetRule := mkRule {
  test : string;                 (* the source of the regular expression *)
  include : list string;
  use : list Loader;
}.

(** The part of a webpack [Configuration] the plugin writes:
    [resolve.alias] and [module.rules]. *)
Record Configuration := mkConfiguration {
  resolve_alias : list (string * string);
  module_rules : list RuleSetRule;
}.

Record ConfigureWebpackUtils := mkUtils {
  getBabelLoader : bool → Loader;
  getCacheLoader : bool → Loader;
}.

(** ** A small site *)

(** Concrete inputs on which the statements below are exercised: a pet-store
    content of two sections, a site whose API docs are mounted at [/api],
    and simple stand-ins for the host's primitives. *)
Module Sample.

Definition ctx : LoadContext := {| baseUrl := "/"; generatedFilesDir := ".docusaurus" |}.

Definition opts : PartialOptions := {|
  opt_routeBasePath := Some "/api";
  opt_openapiPath := Some "openapi.json";
  opt_apiLayoutComponent := None;
  opt_apiItemComponent := None;
  opt_remarkPlugins := None;
  opt_rehypePlugins := None;
  opt_admonitions := None;
  opt_sidebarLabel := None;
  opt_pageId := None;
|}.

Definition plain_opts : PartialOptions := {|
  opt_routeBasePath := None;
  opt_openapiPath := None;
  opt_apiLayoutComponent := None;
  opt_apiItemComponent := None;
  opt_remarkPlugins := None;
  opt_rehypePlugins := None;
  opt_admonitions := Some (JsBool false);
  opt_sidebarLabel := None;
  opt_pageId := None;
|}.

Definition self : Plugin := pluginOpenAPI ctx opts.

Definition listPets : ApiItem := {|
  permalink := "/api/list-pets";
  hashId := "list-pets";
  description := "Returns all pets.";
  deprecated := None;
  props := [("summary", JsString "List pets")];
|}.

Definition createPet : ApiItem := {|
  permalink := "/api/create-pet";
  hashId := "create-pet";
  description := "Adds a pet to the store.";
  deprecated := None;
  props := [("summary", JsString "Create a pet")];
|}.

Definition getOwner : ApiItem := {|
  permalink := "/api/get-owner";
  hashId := "get-owner";
  description := "Looks an owner up.";
  deprecated := Some true;
  props := [("summary", JsString "Get an owner")];
|}.

(** A second operation that was given the permalink of [listPets]. *)
Definition listPetsAgain : ApiItem := {|
  permalink := "/api/list-pets";
  hashId := "list-pets-2";
  description := "Returns all pets, paged.";
  deprecated := None;
  props := [("summary", JsString "List pets")];
|}.

(** An operation whose permalink is the reserved key. *)
Definition proto : ApiItem := {|
  permalink := "__proto__";
  hashId := "proto";
  description := "";
  deprecated := None;
  props := [];
|}.

Definition content : LoadedContent := {|
  openapiData := [ {| title := "Pets"; items := [listPets; createPet] |};
                   {| title := "Owners"; items := [getOwner] |} ];
|}.

Definition clashing : LoadedContent := {|
  openapiData := [ {| title := "Pets"; items := [listPets; listPetsAgain] |} ];
|}.

Definition reserved : LoadedContent := {|
  openapiData := [ {| title := "Odd"; items := [proto] |} ];
|}.

Definition empty : LoadedContent := {| openapiData := [] |}.

Definition route (p c : string) : RouteConfig :=
  {| path := p; component := c; exact := Some true; routes := None; modules := [] |}.

Definition blog : RouteConfig := route "/blog" "@theme/BlogListPage".
Definition page : RouteConfig := route "/api" "@site/src/pages/api.js".
Definition other_page : RouteConfig := route "/api" "@site/src/pages/api2.js".
Definition layout : RouteConfig := route "/api" "@theme/ApiPage".

Definition host : Host := {| created := []; added := [] |}.

Definition docuHash (s : string) : string := "h-" +:+ s.
Definition normalizeUrl (parts : list string) : string := String.concat "/" parts.
Definition JSON_stringify_item (item : ApiItem) : string := "json of " +:+ hashId item.
Definition JSON_stringify_metadata (m : DocsMetadata) : string := "json of the metadata".
Definition dataPath (file : string) : string := "~api/" +:+ file.
Definition existsSync (p : string) : bool := bool_decide (p = "openapi.json").
Definition loadOpenapi (p b r : string) (o : PluginOptions) : Promise (list ApiSection) :=
  Resolved (openapiData content).
Definition require_resolve (request : string) : string := "/node_modules/" +:+ request.

(** A site whose API docs are mounted at the root, and a [normalizeUrl]
    that joins with [/] and collapses repeated slashes. *)
Definition root_opts : PartialOptions := {|
  opt_routeBasePath := Some "";
  opt_openapiPath := Some "openapi.json";
  opt_apiLayoutComponent := None;
  opt_apiItemComponent := None;
  opt_remarkPlugins := None;
  opt_rehypePlugins := None;
  opt_admonitions := None;
  opt_sidebarLabel := None;
  opt_pageId := None;
|}.

Definition root : Plugin := pluginOpenAPI ctx root_opts.

Fixpoint collapse (s : string) : string :=
  match s with
  | String a t =>
      match t with
      | String b _ =>
          if Ascii.eqb a "/"%char && Ascii.eqb b "/"%char then collapse t else String a (collapse t)
      | EmptyString => s
      end
  | EmptyString => s
  end.

Definition normalizeUrl_collapsing (parts : list string) : string :=
  collapse (String.concat "/" parts).

Definition index : RouteConfig := route "/" "@site/src/pages/index.js".
Definition second_layout : RouteConfig := route "/api" "@theme/ApiPage".

End Sample.

(** ** The hooks *)

Section Hooks.
Set Default Proof Using "Type".

(** Primitives of the host and the platform.  [dataPath file] is the module
    path the host's [createData] resolves with for [file]; the two
    [JSON_stringify] variables are [JSON.stringify] at the two types it is
    called at (the second with indentation 2).  [createData] and [addRoute]
    are taken to succeed. *)
Variable docuHash : string → string.
Variable normalizeUrl : list string → string.
Variable JSON_stringify_item : ApiItem → string.
Variable JSON_stringify_metadata : DocsMetadata → string.
Variable dataPath : string → string.
Variable existsSync : string → bool.
Variable loadOpenapi : string → string → string → PluginOptions → Promise (list ApiSection).
Variable require_resolve : string → string.

Definition createData (file content : string) : M string :=
  λ h, (dataPath file, {| created := created h ++ [(file, content)]; added := added h |}).

Definition addRoute (r : RouteConfig) : M unit :=
  λ h, ((), {| created := created h; added := added h ++ [r] |}).

Definition getPathsToWatch (self : Plugin) : list string :=
  [openapiPath (options self)].

Definition getClientModules (self : Plugin) : list string :=
  let modules := [] in
  if truthy (admonitions (options self))
  then modules ++ [require_resolve "remark-admonitions/styles/infima.css"]
  else modules.

Definition loadContent (self : Plugin) : Promise (option LoadedContent) :=
  let routeBasePath := routeBasePath (options self) in
  let openapiPath := openapiPath (options self) in
  if negb (truthy (JsString openapiPath)) || negb (existsSync openapiPath)
  then Resolved None
  else
    match loadOpenapi openapiPath (baseUrl (context self)) routeBasePath (options self) with
    | Resolved openapiData => Resolved (Some {| openapiData := openapiData |})
    | Rejected e => Rejected e
    end.

(** Lines 102-116. *)
Definition sidebar (self : Plugin) (openapiData : list ApiSection) : list SidebarCategory.t :=
  map (λ category,
         {| SidebarCategory.collapsed := true;
            SidebarCategory.type := "category";
            SidebarCategory.label := title category;
            SidebarCategory.items :=
              map (λ item,
                     {| SidebarLink.href := permalink item;
                        SidebarLink.label := item_get item (sidebarLabel (options self));
                        SidebarLink.type := "link";
                        SidebarLink.deprecated := deprecated item |})
                  (items category) |})
      openapiData.

(** The [async (item) => ...] closure of lines 120-143 runs in three
    stretches, cut at its two [await]s. *)
Definition item_pageId (self : Plugin) (item : ApiItem) : string :=
  "site-" +:+ routeBasePath (options self) +:+ "-" +:+ hashId item.

(** Up to the first [await]: runs inside [map], so for all items in order
    before anything is resumed. *)
Definition item_begin (self : Plugin) (item : ApiItem) : M (ApiItem * string) :=
  openapiDataPath ← createData (docuHash (item_pageId self item) +:+ ".json")
                               (JSON_stringify_item item);
  mret (item, openapiDataPath).

(** From the first [await] to the second. *)
Definition item_resume (self : Plugin) (p : ApiItem * string) : M string :=
  createData (docuHash (item_pageId self p.1) +:+ "-description.md") (description p.1).

(** After the second [await]: the value the closure's promise resolves with. *)
Definition item_route (self : Plugin) (p : ApiItem * string) (markdown : string) : RouteConfig :=
  {| path := permalink p.1;
     component := apiItemComponent (options self);
     exact := Some true;
     routes := None;
     modules := [("openapi", ModulePath p.2);
                 ("content", ModuleObject true markdown)] |}.

(** The host resumes the pending closures in the order [sched] (indices into
    the flattened item list) in which their first promises settle. *)
Fixpoint resume_all (self : Plugin) (sched : list nat) (pending : list (ApiItem * string))
    (settled : gmap nat string) : M (gmap nat string) :=
  match sched with
  | [] => mret settled
  | i :: sched =>
      match pending !! i with
      | Some p =>
          markdown ← item_resume self p;
          resume_all self sched pending (<[i := markdown]> settled)
      | None => resume_all self sched pending settled
      end
  end.

(** [await Promise.all(promises)]: the routes in item order, once every
    closure has run to its end; [None] while one is still pending. *)
Definition promise_all (self : Plugin) (pending : list (ApiItem * string))
    (settled : gmap nat string) : option (list RouteConfig) :=
  mapM (λ ip, item_route self ip.2 <$> settled !! ip.1) (imap pair pending).

(** Lines 149-155. *)
Definition permalinkToSidebar_of (routes : list RouteConfig) : gmap string string :=
  foldl (λ acc item, js_set (path item) "sidebar" acc) ∅ routes.

(** [Some ()] when the hook's promise resolves; [None] when [sched] leaves a
    closure pending, so that the hook never gets past [Promise.all]. *)
Definition contentLoaded (self : Plugin) (sched : list nat) (content : option LoadedContent)
  : M (option unit) :=
  match content with
  | None => mret (Some ())
  | Some content =>
      if decide (length (openapiData content) = 0) then mret (Some ()) else
      let openapiData := openapiData content in
      let sidebar := sidebar self openapiData in
      pending ← mapM (item_begin self) (concat (map items openapiData));
      settled ← resume_all self sched pending ∅;
      match promise_all self pending settled with
      | None => mret None
      | Some routes =>
          let permalinkToSidebar := permalinkToSidebar_of routes in
          let apiBaseRoute :=
            normalizeUrl [baseUrl (context self); routeBasePath (options self)] in
          let basePath := if decide (apiBaseRoute = "/") then "" else apiBaseRoute in
          docsBaseMetadataPath ←
            createData (docuHash (normalizeUrl [apiBaseRoute; ":route"]) +:+ ".json")
                       (JSON_stringify_metadata
                          {| docsSidebars := {[ "sidebar" := sidebar ]};
                             permalinkToSidebar := permalinkToSidebar |});
          addRoute {| path := basePath;
                      exact := Some false;
                      component := apiLayoutComponent (options self);
                      routes := Some routes;
                      modules := [("docsMetadata", ModulePath docsBaseMetadataPath)] |};;
          mret (Some ())
      end
  end.

(** The array is mutated in place: the result is its state when the hook's
    promise resolves.  A rejection happens before any write. *)
Definition routesLoaded (self : Plugin) (routes : list (option RouteConfig))
  : Promise (list (option RouteConfig)) :=
  let homeDocsRoutes :=
    js_filter (λ routeConfig, bool_decide (path routeConfig = homePageDocsRoutePath self))
              routes in
  if decide (1 < length homeDocsRoutes) then
    match js_findIndex
            (λ route, bool_decide (component route = apiLayoutComponent (options self))
                      && bool_decide (path route = homePageDocsRoutePath self))
            routes with
    | Resolved docsHomePageRouteIndex => Resolved (js_delete docsHomePageRouteIndex routes)
    | Rejected e => Rejected e
    end
  else Resolved routes.


(** [path.join], for [dataDir] (line 53). *)
Variable path_join : string → string → string.

Definition dataDir (self : Plugin) : string :=
  path_join (generatedFilesDir (context self)) (name self).

(** The first argument, the configuration built so far, is not read. *)
Definition configureWebpack (self : Plugin) (_config : Configuration) (isServer : bool)
    (utils : ConfigureWebpackUtils) : Configuration :=
  let rehypePlugins := rehypePlugins (options self) in
  let remarkPlugins := remarkPlugins (options self) in
  {| resolve_alias := [("~api", dataDir self)];
     module_rules :=
       [ {| test := "(\.mdx?)$";
            include := [dataDir self];
            use := [getCacheLoader utils isServer;
                    getBabelLoader utils isServer;
                    LoaderWithOptions (require_resolve "@docusaurus/mdx-loader")
                                      remarkPlugins rehypePlugins] |} ] |}.

(** The callback [routesLoaded] searches with (lines 198-200). *)
Definition is_docs_home (self : Plugin) (route : RouteConfig) : bool :=
  bool_decide (component route = apiLayoutComponent (options self))
  && bool_decide (path route = homePageDocsRoutePath self).

(** The hrefs of a sidebar, category after category. *)
Definition sidebar_hrefs (sb : list SidebarCategory.t) : list string :=
  sb ≫= λ category, SidebarLink.href <$> SidebarCategory.items category.

(** ** Vocabulary for the statements about [contentLoaded] *)

(** The items of all sections, in order: the index space of the closures. *)
Definition all_items (content : LoadedContent) : list ApiItem :=
  concat (map items (openapiData content)).

(** The two [createData] calls made for one item, as (file, content). *)
Definition item_json (self : Plugin) (item : ApiItem) : string * string :=
  (docuHash (item_pageId self item) +:+ ".json", JSON_stringify_item item).

Definition item_markdown (self : Plugin) (item : ApiItem) : string * string :=
  (docuHash (item_pageId self item) +:+ "-description.md", description item).

(** The state a closure is in after its first stretch, and the route it
    resolves with, given what [createData] returns. *)
Definition item_pending (self : Plugin) (item : ApiItem) : ApiItem * string :=
  (item, dataPath (item_json self item).1).

Definition item_settled (self : Plugin) (item : ApiItem) : RouteConfig :=
  item_route self (item_pending self item) (dataPath (item_markdown self item).1).

(** The markdown paths known after resuming the closures listed in [sched]. *)
Definition settle (self : Plugin) (pending : list (ApiItem * string))
    (settled : gmap nat string) (sched : list nat) : gmap nat string :=
  foldl (λ s i, match pending !! i with
                | Some p => <[i := dataPath (item_markdown self p.1).1]> s
                | None => s
                end) settled sched.

(** ** Arrays with holes *)

Lemma omap_id_dense {A} (l : list A) : omap id (dense l) = l.
Proof. unfold dense. induction l as [|x l IH]; [done|]. simpl. by f_equal. Qed.

Lemma js_findIndex_from_none {A} (p : A → bool) (l : list A) (i : Z) :
  Forall (λ x, p x = false) l → js_findIndex_from p (dense l) i = Resolved (-1)%Z.
Proof.
  intros H. revert i. induction H as [|x l Hx _ IH]; intros i; simpl; [done|].
  rewrite Hx. apply IH.
Qed.

Lemma js_findIndex_from_first {A} (p : A → bool) (l1 : list (option A)) x l2 (i : Z) :
  Forall (λ s, ∃ y, s = Some y ∧ p y = false) l1 → p x = true →
  js_findIndex_from p (l1 ++ Some x :: l2) i = Resolved (i + Z.of_nat (length l1))%Z.
Proof.
  intros H Hx. revert i. induction H as [|s l1 (y & -> & Hy) _ IH]; intros i; simpl.
  - rewrite Hx. f_equal. lia.
  - rewrite Hy, IH. f_equal. lia.
Qed.

(** A resolved search either found nothing or stopped at the first match,
    having seen only routes before it. *)
Lemma js_findIndex_from_inv {A} (p : A → bool) (arr : list (option A)) (i k : Z) :
  js_findIndex_from p arr i = Resolved k →
  k = (-1)%Z ∨
  ∃ l1 x l2, arr = l1 ++ Some x :: l2 ∧ p x = true ∧ k = (i + Z.of_nat (length l1))%Z ∧
             Forall (λ s, ∃ y, s = Some y ∧ p y = false) l1.
Proof.
  revert i. induction arr as [|[x|] arr IH]; intros i; simpl; intros H.
  - left. congruence.
  - destruct (p x) eqn:Hx.
    + right. exists [], x, arr. simpl. repeat split; [done| |constructor].
      injection H as <-. lia.
    + destruct (IH _ H) as [->|(l1 & y & l2 & -> & Hy & -> & Hl1)]; [by left|].
      right. exists (Some x :: l1), y, l2. simpl. repeat split; [done|lia|].
      constructor; eauto.
  - done.
Qed.

Lemma split_first {A} (p : A → bool) (l : list A) :
  Exists (λ x, p x = true) l →
  ∃ l1 x l2, l = l1 ++ x :: l2 ∧ p x = true ∧ Forall (λ y, p y = false) l1.
Proof.
  induction l as [|y l IH]; intros H; [by apply Exists_nil in H|].
  destruct (p y) eqn:Hy.
  - exists [], y, l. by repeat split.
  - apply Exists_cons in H as [H|H]; [congruence|].
    destruct (IH H) as (l1 & x & l2 & -> & Hx & Hl1).
    exists (y :: l1), x, l2. repeat split; [done|]. by constructor.
Qed.

Lemma js_delete_middle {A} (l1 : list (option A)) s l2 :
  js_delete (Z.of_nat (length l1)) (l1 ++ s :: l2) = l1 ++ None :: l2.
Proof.
  unfold js_delete. rewrite decide_True by lia. rewrite Nat2Z.id.
  rewrite insert_app_r_alt by lia. by rewrite Nat.sub_diag.
Qed.

Lemma js_delete_length {A} (i : Z) (arr : list (option A)) :
  length (js_delete i arr) = length arr.
Proof. unfold js_delete. case_decide; [apply length_insert|done]. Qed.

Lemma js_filter_dense {A} (p : A → bool) (l : list A) :
  js_filter p (dense l) = List.filter p l.
Proof. unfold js_filter. by rewrite omap_id_dense. Qed.

Lemma filter_length_bool {A} (P : A → Prop) `{∀ x, Decision (P x)} (l : list A) :
  length (List.filter (λ x, bool_decide (P x)) l) = length (filter P l).
Proof.
  induction l as [|x l IH]; [done|]. simpl. rewrite filter_cons.
  destruct (decide (P x)).
  - rewrite bool_decide_true by done. simpl. by rewrite IH.
  - by rewrite bool_decide_false by done.
Qed.


(** ** [routesLoaded] *)

(** The search callback of [routesLoaded] (lines 198-200). *)
Lemma home_layout_match (self : Plugin) (r : RouteConfig) :
  bool_decide (component r = apiLayoutComponent (options self))
  && bool_decide (path r = homePageDocsRoutePath self) = true
  ↔ component r = apiLayoutComponent (options self) ∧ path r = homePageDocsRoutePath self.
Proof. rewrite andb_true_iff, !bool_decide_eq_true. tauto. Qed.

Lemma routesLoaded_single (self : Plugin) (routes : list (option RouteConfig)) :
  ¬ 1 < length (js_filter (λ r, bool_decide (path r = homePageDocsRoutePath self)) routes) →
  routesLoaded self routes = Resolved routes.
Proof. intros H. unfold routesLoaded. by rewrite decide_False. Qed.


(** C9. When [routesLoaded] changes the array, the array keeps its length,
    exactly one slot, which held a route with the layout component at the
    home path, has become a hole, and every other slot is as before. *)
Theorem routesLoaded_delete_leaves_hole (self : Plugin) (routes routes' : list (option RouteConfig)) :
  routesLoaded self routes = Resolved routes' →
  routes' ≠ routes →
  length routes' = length routes ∧
  ∃ i r, routes !! i = Some (Some r) ∧
         component r = apiLayoutComponent (options self) ∧
         path r = homePageDocsRoutePath self ∧
         routes' !! i = Some None ∧
         ∀ j, j ≠ i → routes' !! j = routes !! j.
Proof.
  unfold routesLoaded. case_decide; [|congruence].
  destruct (js_findIndex _ routes) as [k|e] eqn:Hfind; [|done].
  intros [= <-] Hne. split; [apply js_delete_length|].
  apply js_findIndex_from_inv in Hfind as [->|(l1 & x & l2 & -> & Hx & -> & _)]; [done|].
  apply home_layout_match in Hx as [Hc Hp].
  rewrite Z.add_0_l, js_delete_middle.
  exists (length l1), x. repeat split; [|done|done| |].
  - by rewrite list_lookup_middle.
  - by rewrite list_lookup_middle.
  - intros j Hj. destruct (decide (j < length l1)).
    + by rewrite !lookup_app_l.
    + rewrite !lookup_app_r by lia.
      destruct (j - length l1) as [|m] eqn:E; [lia|done].
Qed.



(** ** [contentLoaded]: running the monad *)

Lemma omap_ext_elem {A B} (f g : A → option B) (l : list A) :
  (∀ x, x ∈ l → f x = g x) → omap f l = omap g l.
Proof.
  intros H. apply list_omap_ext, Forall2_same_length_lookup. split; [done|].
  intros i x y Hx Hy. simplify_eq. apply H. by eapply list_elem_of_lookup_2.
Qed.

Lemma omap_lookup_seq {A B} (f : A → B) (l : list A) :
  omap (λ i, f <$> l !! i) (seq 0 (length l)) = f <$> l.
Proof.
  induction l as [|x l IH] using rev_ind; [done|].
  rewrite length_app, seq_app, omap_app, fmap_app. simpl. f_equal.
  - rewrite <- IH. apply omap_ext_elem. intros i Hi.
    apply elem_of_seq in Hi. by rewrite lookup_app_l by lia.
  - by rewrite list_lookup_middle.
Qed.

Lemma mapM_item_begin (self : Plugin) (l : list ApiItem) (h : Host) :
  mapM (item_begin self) l h =
  (item_pending self <$> l,
   {| created := created h ++ (item_json self <$> l); added := added h |}).
Proof.
  revert h. induction l as [|item l IH]; intros [c a]; simpl.
  - unfold mret, M_ret. by rewrite app_nil_r.
  - unfold mbind, M_bind at 1. unfold item_begin at 1.
    unfold mbind, M_bind at 1. unfold createData at 1. simpl.
    unfold mbind, M_bind at 1. rewrite IH. simpl.
    unfold mret, M_ret. by rewrite <- app_assoc.
Qed.


Lemma resume_all_run (self : Plugin) (pending : list (ApiItem * string))
    (sched : list nat) (settled : gmap nat string) (h : Host) :
  resume_all self sched pending settled h =
  (settle self pending settled sched,
   {| created := created h ++ omap (λ i, (λ p, item_markdown self p.1) <$> pending !! i) sched;
      added := added h |}).
Proof.
  revert settled h. induction sched as [|i sched IH]; intros settled [c a]; simpl.
  - unfold mret, M_ret. by rewrite app_nil_r.
  - destruct (pending !! i) as [p|] eqn:Hp; simpl.
    + unfold mbind, M_bind, item_resume, createData. simpl.
      rewrite IH. simpl. by rewrite <- app_assoc.
    + by rewrite IH.
Qed.

Lemma settle_cons (self : Plugin) (pending : list (ApiItem * string))
    (j : nat) (sched : list nat) (settled : gmap nat string) :
  settle self pending settled (j :: sched) =
  settle self pending
         (match pending !! j with
          | Some p => <[j := dataPath (item_markdown self p.1).1]> settled
          | None => settled
          end) sched.
Proof. done. Qed.

Lemma settle_lookup (self : Plugin) (pending : list (ApiItem * string))
    (sched : list nat) (settled : gmap nat string) (i : nat) :
  settle self pending settled sched !! i =
  match pending !! i with
  | Some p => if decide (i ∈ sched) then Some (dataPath (item_markdown self p.1).1)
              else settled !! i
  | None => settled !! i
  end.
Proof.
  revert settled. induction sched as [|j sched IH]; intros settled.
  - by destruct (pending !! i).
  - rewrite settle_cons, IH. clear IH.
    destruct (pending !! i) as [p|] eqn:Hi.
    + destruct (decide (i = j)) as [->|Hne].
      * rewrite Hi, (decide_True (P := j ∈ j :: sched)) by (apply elem_of_cons; by left).
        case_decide; [done|]. by rewrite lookup_insert_eq.
      * assert (Hiff : i ∈ j :: sched ↔ i ∈ sched) by (rewrite elem_of_cons; tauto).
        rewrite (decide_ext _ _ _ _ Hiff). case_decide; [done|].
        destruct (pending !! j); [by rewrite lookup_insert_ne|done].
    + destruct (pending !! j) eqn:Hj; [|done].
      rewrite lookup_insert_ne; [done|]. intros ->. congruence.
Qed.

Lemma promise_all_settled (self : Plugin) (items : list ApiItem) (sched : list nat) :
  sched ≡ₚ seq 0 (length items) →
  promise_all self (item_pending self <$> items)
              (settle self (item_pending self <$> items) ∅ sched)
  = Some (item_settled self <$> items).
Proof.
  intros Hsched. unfold promise_all. apply mapM_Some, Forall2_same_length_lookup.
  split; [by rewrite length_imap, !length_fmap|].
  intros i [j p] r Hi Hr.
  rewrite list_lookup_imap, list_lookup_fmap in Hi.
  rewrite list_lookup_fmap in Hr.
  destruct (items !! i) as [item|] eqn:Hitem; simplify_eq/=.
  rewrite settle_lookup, list_lookup_fmap, Hitem. simpl.
  rewrite decide_True; [done|].
  rewrite Hsched. apply elem_of_seq. apply lookup_lt_Some in Hitem. lia.
Qed.

Lemma resume_log_perm (self : Plugin) (items : list ApiItem) (sched : list nat) :
  sched ≡ₚ seq 0 (length items) →
  omap (λ i, (λ p, item_markdown self p.1) <$> (item_pending self <$> items) !! i) sched
  ≡ₚ item_markdown self <$> items.
Proof.
  intros ->. erewrite omap_ext_elem; [by rewrite omap_lookup_seq|].
  intros i _. rewrite list_lookup_fmap. by destruct (items !! i).
Qed.

(** The run of [contentLoaded] on a non-empty content under a schedule that
    resumes every closure once. *)
Lemma contentLoaded_run (self : Plugin) (sched : list nat) (content : LoadedContent) (h : Host) :
  openapiData content ≠ [] →
  sched ≡ₚ seq 0 (length (all_items content)) →
  let routes := item_settled self <$> all_items content in
  let apiBaseRoute := normalizeUrl [baseUrl (context self); routeBasePath (options self)] in
  let file := docuHash (normalizeUrl [apiBaseRoute; ":route"]) +:+ ".json" in
  contentLoaded self sched (Some content) h =
  (Some (),
   {| created :=
        created h
        ++ (item_json self <$> all_items content)
        ++ omap (λ i, (λ p, item_markdown self p.1)
                        <$> (item_pending self <$> all_items content) !! i) sched
        ++ [(file,
             JSON_stringify_metadata
               {| docsSidebars := {[ "sidebar" := sidebar self (openapiData content) ]};
                  permalinkToSidebar := permalinkToSidebar_of routes |})];
      added :=
        added h
        ++ [{| path := if decide (apiBaseRoute = "/") then "" else apiBaseRoute;
               component := apiLayoutComponent (options self);
               exact := Some false;
               routes := Some routes;
               modules := [("docsMetadata", ModulePath (dataPath file))] |}] |}).
Proof.
  intros Hne Hsched routes apiBaseRoute file. unfold contentLoaded.
  rewrite decide_False by (by destruct (openapiData content)).
  fold (all_items content).
  unfold mbind at 1, M_bind at 1. rewrite mapM_item_begin.
  unfold mbind at 1, M_bind at 1. rewrite resume_all_run.
  rewrite promise_all_settled by done. simpl.
  unfold mbind, M_bind, createData, addRoute, mret, M_ret. simpl.
  by rewrite <- !app_assoc.
Qed.


(** ** Options and the hooks that only read them *)

Lemma pluginOpenAPI_admonitions (ctx : LoadContext) (opts : PartialOptions) :
  admonitions (options (pluginOpenAPI ctx opts)) = admonitions (merged opts).
Proof. unfold pluginOpenAPI. cbn [options]. by destruct (truthy (admonitions (merged opts))). Qed.

(** C2 (as amended). The record the hooks close over differs from the merged
    record in at most one field: [remarkPlugins] is the merged list with the
    entry [[admonitions, options.admonitions]] appended when the merged
    [admonitions] is truthy, and the merged list otherwise; every other field
    is as merged. *)
Theorem options_after_merge (ctx : LoadContext) (opts : PartialOptions) :
  let m := merged opts in
  let o := options (pluginOpenAPI ctx opts) in
  routeBasePath o = routeBasePath m ∧
  openapiPath o = openapiPath m ∧
  apiLayoutComponent o = apiLayoutComponent m ∧
  apiItemComponent o = apiItemComponent m ∧
  rehypePlugins o = rehypePlugins m ∧
  admonitions o = admonitions m ∧
  sidebarLabel o = sidebarLabel m ∧
  pageId o = pageId m ∧
  remarkPlugins o =
    (if truthy (admonitions m)
     then remarkPlugins m ++ [PluginWith admonitions_plugin (admonitions m)]
     else remarkPlugins m).
Proof.
  intros m o. subst o. unfold pluginOpenAPI. cbn [options]. fold m.
  destruct (truthy (admonitions m)); repeat split; reflexivity.
Qed.

(** C5. [loadContent] resolves with [null] when [openapiPath] is the empty
    string or names no existing file; otherwise it calls the parser with the
    path, the base URL, the route base path and the options, resolves with
    the parser's output wrapped as [{ openapiData }], and rejects as the
    parser rejects. *)
Theorem loadContent_no_content (self : Plugin) :
  (openapiPath (options self) = "" ∨ existsSync (openapiPath (options self)) = false →
   loadContent self = Resolved None)
  ∧ (openapiPath (options self) ≠ "" → existsSync (openapiPath (options self)) = true →
     loadContent self =
     match loadOpenapi (openapiPath (options self)) (baseUrl (context self))
                       (routeBasePath (options self)) (options self) with
     | Resolved data => Resolved (Some {| openapiData := data |})
     | Rejected e => Rejected e
     end).
Proof.
  unfold loadContent. split.
  - intros [-> | ->]; [done|]. simpl. by rewrite orb_true_r.
  - intros Hne ->. simpl. rewrite orb_false_r.
    by destruct (openapiPath (options self)).
Qed.

(** C6. On a [null] content and on a content of zero sections
    [contentLoaded] resolves at once: the host has seen no [createData] and
    no [addRoute] call, whatever the schedule. *)
Theorem contentLoaded_nothing_to_do (self : Plugin) (sched : list nat) (h : Host) :
  contentLoaded self sched None h = (Some (), h)
  ∧ contentLoaded self sched (Some {| openapiData := [] |}) h = (Some (), h).
Proof. done. Qed.

(** C8. [getClientModules] returns the one-element list holding the resolved
    callout stylesheet exactly when the [admonitions] option is truthy and
    the empty list exactly when it is falsy; with nothing configured the
    option is the empty object, which is truthy, so the stylesheet is
    included. *)
Theorem getClientModules_admonitions (ctx : LoadContext) (opts : PartialOptions) :
  let self := pluginOpenAPI ctx opts in
  let stylesheet := require_resolve "remark-admonitions/styles/infima.css" in
  (getClientModules self = [stylesheet] ↔ truthy (admonitions (merged opts)) = true)
  ∧ (getClientModules self = [] ↔ truthy (admonitions (merged opts)) = false)
  ∧ admonitions (merged no_options) = JsObject []
  ∧ getClientModules (pluginOpenAPI ctx no_options) = [stylesheet].
Proof.
  intros self stylesheet. subst self.
  unfold getClientModules. rewrite !pluginOpenAPI_admonitions. fold stylesheet.
  destruct (truthy (admonitions (merged opts))); simpl;
    repeat split; intros; try reflexivity; discriminate.
Qed.


(** ** [contentLoaded]: sidebar, lookup and routes *)

Lemma sidebar_item_counts (self : Plugin) (data : list ApiSection) :
  (length ∘ SidebarCategory.items) <$> sidebar self data = (length ∘ items) <$> data.
Proof.
  unfold sidebar. induction data as [|s data IH]; [done|].
  simpl. rewrite length_map. f_equal. apply IH.
Qed.

Lemma length_all_items (content : LoadedContent) :
  length (all_items content) = sum_list ((length ∘ items) <$> openapiData content).
Proof.
  unfold all_items. induction (openapiData content) as [|s data IH]; [done|].
  simpl. rewrite length_app. by f_equal.
Qed.

Lemma all_items_nonempty (content : LoadedContent) (i : nat) (item : ApiItem) :
  all_items content !! i = Some item → openapiData content ≠ [].
Proof. unfold all_items. by destruct (openapiData content). Qed.

Lemma item_settled_path (self : Plugin) (l : list ApiItem) :
  path <$> (item_settled self <$> l) = permalink <$> l.
Proof. rewrite <- list_fmap_compose. by apply list_fmap_ext. Qed.

Lemma permalinkToSidebar_lookup (l : list RouteConfig) (acc : gmap string string) (k : string) :
  foldl (λ acc item, js_set (path item) "sidebar" acc) acc l !! k =
  if decide (k ≠ "__proto__" ∧ k ∈ path <$> l) then Some "sidebar" else acc !! k.
Proof.
  revert acc. induction l as [|r l IH]; intros acc; simpl.
  - case_decide as H; [|done]. destruct H as [_ H]. by apply elem_of_nil in H.
  - rewrite IH. clear IH.
    destruct (decide (k ≠ "__proto__" ∧ k ∈ path <$> l)) as [[Hk Hin]|Hno].
    { rewrite decide_True; [done|]. split; [done|]. apply elem_of_cons. by right. }
    unfold js_set. destruct (decide (path r = "__proto__")) as [Hr|Hr].
    { rewrite decide_False; [done|].
      intros [Hk [-> | Hin]%elem_of_cons]; [done|]. by apply Hno. }
    destruct (decide (k = path r)) as [->|Hne].
    + rewrite lookup_insert_eq, decide_True; [done|].
      split; [done|]. apply elem_of_cons. by left.
    + rewrite lookup_insert_ne by done.
      rewrite decide_False; [done|].
      intros [Hk [-> | Hin]%elem_of_cons]; [done|]. by apply Hno.
Qed.

Lemma permalinkToSidebar_of_lookup (l : list RouteConfig) (k : string) :
  permalinkToSidebar_of l !! k =
  if decide (k ≠ "__proto__" ∧ k ∈ path <$> l) then Some "sidebar" else None.
Proof. unfold permalinkToSidebar_of. by rewrite permalinkToSidebar_lookup, lookup_empty. Qed.

Lemma permalinkToSidebar_of_size (l : list RouteConfig) :
  NoDup (path <$> l) → "__proto__" ∉ path <$> l →
  size (permalinkToSidebar_of l) = length l.
Proof.
  intros Hdup Hproto.
  rewrite <- size_dom, <- (length_fmap path l), <- (size_list_to_set (C := gset string)) by done.
  f_equal. apply set_eq. intros k.
  rewrite elem_of_dom, permalinkToSidebar_of_lookup, elem_of_list_to_set.
  case_decide as H.
  - split; [intros _; apply H|]. by eexists.
  - split; [by intros [? ?]|]. intros Hin. destruct H. split; [|done]. by intros ->.
Qed.


(** Whatever the schedule, a run of [contentLoaded] registers nothing or one
    route, and that route carries the configured layout component. *)
Lemma contentLoaded_adds_layout_route (self : Plugin) (sched : list nat)
    (content : option LoadedContent) (h : Host) :
  let h' := exec (contentLoaded self sched content) h in
  added h' = added h
  ∨ ∃ r, added h' = added h ++ [r] ∧ component r = apiLayoutComponent (options self).
Proof.
  intros h'. subst h'. unfold exec.
  destruct content as [content|]; [|by left]. unfold contentLoaded.
  case_decide; [by left|].
  unfold mbind, M_bind. rewrite mapM_item_begin, resume_all_run.
  destruct (promise_all _ _ _); [right|by left].
  by eexists.
Qed.

Lemma interleave_perm {A B} (f g : A → B) (l : list A) :
  (f <$> l) ++ (g <$> l) ≡ₚ l ≫= λ x, [f x; g x].
Proof.
  induction l as [|x l IH]; [done|]. simpl.
  rewrite <- IH. apply Permutation_cons; [done|]. symmetry. apply Permutation_middle.
Qed.

(** C3 (as amended). For a content of N >= 1 sections with item counts
    k1..kN, and a schedule that resumes every item's closure once,
    [contentLoaded] makes a single [addRoute] call; the route it registers
    holds in [routes] one route per item, in item order, k1 + ... + kN in
    all; and the sidebar serialized into the metadata artifact has N
    categories whose item counts are k1..kN in section order. *)
Theorem contentLoaded_counts (self : Plugin) (sched : list nat) (content : LoadedContent)
    (h : Host) :
  openapiData content ≠ [] →
  sched ≡ₚ seq 0 (length (all_items content)) →
  let h' := exec (contentLoaded self sched (Some content)) h in
  let counts := (length ∘ items) <$> openapiData content in
  ∃ aggregate item_routes file,
    added h' = added h ++ [aggregate] ∧
    routes aggregate = Some item_routes ∧
    path <$> item_routes = permalink <$> all_items content ∧
    length item_routes = sum_list counts ∧
    last (created h') =
      Some (file,
            JSON_stringify_metadata
              {| docsSidebars := {[ "sidebar" := sidebar self (openapiData content) ]};
                 permalinkToSidebar := permalinkToSidebar_of item_routes |}) ∧
    length (sidebar self (openapiData content)) = length (openapiData content) ∧
    (length ∘ SidebarCategory.items) <$> sidebar self (openapiData content) = counts.
Proof.
  intros Hne Hsched h' counts. subst h'. unfold exec.
  rewrite contentLoaded_run by done. simpl.
  eexists _, _, _. split; [done|]. split; [done|].
  split; [apply item_settled_path|].
  split; [by rewrite length_fmap, length_all_items|].
  split; [by rewrite !app_assoc, last_snoc|].
  split; [apply length_map|apply sidebar_item_counts].
Qed.

(** C4 (as amended). When [contentLoaded] builds the permalink-to-sidebar
    lookup, it is the lookup serialized into the metadata artifact; each of
    its entries is keyed by the path of some item route and holds
    "sidebar"; every item route whose path is not the reserved key
    [__proto__] has its entry; and the number of keys equals the number of
    item routes when the items' permalinks are pairwise distinct and none is
    [__proto__]. *)
Theorem permalinkToSidebar_entries (self : Plugin) (sched : list nat) (content : LoadedContent)
    (h : Host) :
  openapiData content ≠ [] →
  sched ≡ₚ seq 0 (length (all_items content)) →
  let h' := exec (contentLoaded self sched (Some content)) h in
  ∃ aggregate item_routes file sidebars lookup,
    added h' = added h ++ [aggregate] ∧
    routes aggregate = Some item_routes ∧
    last (created h') =
      Some (file, JSON_stringify_metadata
                    {| docsSidebars := sidebars; permalinkToSidebar := lookup |}) ∧
    lookup = permalinkToSidebar_of item_routes ∧
    (∀ k v, lookup !! k = Some v → v = "sidebar" ∧ ∃ r, r ∈ item_routes ∧ path r = k) ∧
    (∀ r, r ∈ item_routes → path r ≠ "__proto__" → lookup !! path r = Some "sidebar") ∧
    (NoDup (permalink <$> all_items content) →
     "__proto__" ∉ permalink <$> all_items content →
     size lookup = length item_routes).
Proof.
  intros Hne Hsched h'. subst h'. unfold exec.
  rewrite contentLoaded_run by done. simpl.
  eexists _, _, _, _, _. split; [done|]. split; [done|].
  split; [by rewrite !app_assoc, last_snoc|]. split; [done|].
  split; [|split].
  - intros k v. rewrite permalinkToSidebar_of_lookup.
    case_decide as H; [|done]. intros [= <-]. split; [done|].
    destruct H as [_ H]. apply list_elem_of_fmap in H as (r & -> & Hr). eauto.
  - intros r Hr Hproto. rewrite permalinkToSidebar_of_lookup, decide_True; [done|].
    split; [done|]. apply list_elem_of_fmap. eauto.
  - intros Hdup Hproto. apply permalinkToSidebar_of_size; by rewrite item_settled_path.
Qed.

(** C7. For the item at any position of any section, [contentLoaded] makes
    exactly two [createData] calls, one with the serialization of the item
    and one with the item's description, so that the calls of a run are, in
    some order, those two per item and the one for the metadata; and the
    route at the item's position has the item's permalink as path and the
    two resolved module paths in [modules]. *)
Theorem contentLoaded_item_artifacts (self : Plugin) (sched : list nat)
    (content : LoadedContent) (h : Host) (i : nat) (item : ApiItem) :
  all_items content !! i = Some item →
  sched ≡ₚ seq 0 (length (all_items content)) →
  let h' := exec (contentLoaded self sched (Some content)) h in
  let pageId (it : ApiItem) := "site-" +:+ routeBasePath (options self) +:+ "-" +:+ hashId it in
  let json (it : ApiItem) := docuHash (pageId it) +:+ ".json" in
  let markdown (it : ApiItem) := docuHash (pageId it) +:+ "-description.md" in
  ∃ aggregate item_routes metadata route,
    created h' ≡ₚ
      created h
      ++ (all_items content ≫=
            λ it, [(json it, JSON_stringify_item it); (markdown it, description it)])
      ++ [metadata] ∧
    added h' = added h ++ [aggregate] ∧
    routes aggregate = Some item_routes ∧
    item_routes !! i = Some route ∧
    path route = permalink item ∧
    modules route = [("openapi", ModulePath (dataPath (json item)));
                     ("content", ModuleObject true (dataPath (markdown item)))].
Proof.
  intros Hitem Hsched h' pageId json markdown. subst h'. unfold exec.
  rewrite contentLoaded_run by eauto using all_items_nonempty. simpl.
  eexists _, _, _, _. split; [|split; [done|split; [done|split]]].
  - rewrite resume_log_perm by done. apply Permutation_app_head.
    rewrite app_assoc. apply Permutation_app_tail, interleave_perm.
  - by rewrite list_lookup_fmap, Hitem.
  - done.
Qed.

(** ** More on [routesLoaded]: which route goes, and arrays with holes *)

Lemma is_docs_home_spec (self : Plugin) (r : RouteConfig) :
  is_docs_home self r = true
  ↔ component r = apiLayoutComponent (options self) ∧ path r = homePageDocsRoutePath self.
Proof. apply home_layout_match. Qed.

Lemma is_docs_home_false (self : Plugin) (r : RouteConfig) :
  is_docs_home self r = false
  ↔ ¬ (path r = homePageDocsRoutePath self ∧ component r = apiLayoutComponent (options self)).
Proof.
  rewrite <- not_true_iff_false, is_docs_home_spec. split; intros H [? ?]; by apply H.
Qed.

Lemma js_findIndex_from_hole {A} (p : A → bool) (l1 l2 : list (option A)) (i : Z) :
  Forall (λ s, ∃ y, s = Some y ∧ p y = false) l1 →
  js_findIndex_from p (l1 ++ None :: l2) i
  = Rejected (TypeError "Cannot read property 'component' of undefined").
Proof.
  intros H. revert i. induction H as [|s l1 (y & -> & Hy) _ IH]; intros i; simpl; [done|].
  by rewrite Hy, IH.
Qed.

Lemma js_findIndex_from_first_hole {A} (p : A → bool) (l1 l2 : list (option A)) (i : Z) :
  (∀ y, Some y ∈ l1 → p y = false) →
  js_findIndex_from p (l1 ++ None :: l2) i
  = Rejected (TypeError "Cannot read property 'component' of undefined").
Proof.
  revert i. induction l1 as [|[y|] l1 IH]; intros i H; simpl; [done| |done].
  rewrite H by (apply elem_of_cons; by left).
  apply IH. intros y' Hy'. apply H, elem_of_cons. by right.
Qed.

Lemma dense_no_match {A} (p : A → bool) (l : list A) :
  Forall (λ y, p y = false) l → Forall (λ s, ∃ y, s = Some y ∧ p y = false) (dense l).
Proof. intros H. apply Forall_fmap. eapply Forall_impl; [done|]. simpl. eauto. Qed.

Lemma home_count_dense (self : Plugin) (rs : list RouteConfig) :
  length (js_filter (λ r, bool_decide (path r = homePageDocsRoutePath self)) (dense rs))
  = length (filter (λ r, path r = homePageDocsRoutePath self) rs).
Proof. by rewrite js_filter_dense, filter_length_bool. Qed.

Lemma home_count_hole (self : Plugin) (l1 l2 : list RouteConfig) :
  length (js_filter (λ r, bool_decide (path r = homePageDocsRoutePath self))
                    (dense l1 ++ None :: dense l2))
  = length (filter (λ r, path r = homePageDocsRoutePath self) (l1 ++ l2)).
Proof.
  unfold js_filter. rewrite omap_app. simpl. fold (dense l2).
  by rewrite !omap_id_dense, filter_length_bool.
Qed.

(** The run of [routesLoaded] on a hole-free array: nothing happens, or the
    first route the search accepts is replaced by a hole. *)
Lemma routesLoaded_dense_run (self : Plugin) (rs : list RouteConfig) :
  ((¬ 1 < length (filter (λ r, path r = homePageDocsRoutePath self) rs)
    ∨ Forall (λ r, is_docs_home self r = false) rs)
   ∧ routesLoaded self (dense rs) = Resolved (dense rs))
  ∨ ∃ l1 x l2,
      1 < length (filter (λ r, path r = homePageDocsRoutePath self) rs) ∧
      rs = l1 ++ x :: l2 ∧
      Forall (λ r, is_docs_home self r = false) l1 ∧
      is_docs_home self x = true ∧
      routesLoaded self (dense rs) = Resolved (dense l1 ++ None :: dense l2).
Proof.
  destruct (decide (1 < length (filter (λ r, path r = homePageDocsRoutePath self) rs)))
    as [Hmany|Hfew].
  2:{ left. split; [by left|]. apply routesLoaded_single. by rewrite home_count_dense. }
  destruct (decide (Exists (λ r, is_docs_home self r = true) rs)) as [Hex|Hno].
  - right. destruct (split_first _ _ Hex) as (l1 & x & l2 & -> & Hx & Hl1).
    exists l1, x, l2. repeat split; try done.
    unfold routesLoaded. rewrite home_count_dense, decide_True by done.
    change (js_findIndex _ (dense (l1 ++ x :: l2)))
      with (js_findIndex_from (is_docs_home self) (dense (l1 ++ x :: l2)) 0).
    unfold dense at 1. rewrite fmap_app, fmap_cons.
    rewrite js_findIndex_from_first by (by try apply dense_no_match).
    rewrite Z.add_0_l. unfold dense at 1. rewrite fmap_app, fmap_cons.
    by rewrite js_delete_middle.
  - left. assert (Hall : Forall (λ r, is_docs_home self r = false) rs).
    { apply Forall_forall. intros r Hr. apply not_true_iff_false. intros Hm.
      apply Hno, Exists_exists. eauto. }
    split; [by right|].
    unfold routesLoaded. rewrite home_count_dense, decide_True by done.
    change (js_findIndex _ (dense rs)) with (js_findIndex_from (is_docs_home self) (dense rs) 0).
    by rewrite js_findIndex_from_none.
Qed.

(** X1. On an array without holes [routesLoaded] always resolves: the array
    is as it was, or exactly one of its routes has been replaced by a hole
    with everything else in place. *)
Theorem routesLoaded_dense_resolves (self : Plugin) (rs : list RouteConfig) :
  routesLoaded self (dense rs) = Resolved (dense rs)
  ∨ ∃ l1 x l2, rs = l1 ++ x :: l2 ∧
               routesLoaded self (dense rs) = Resolved (dense l1 ++ None :: dense l2).
Proof.
  destruct (routesLoaded_dense_run self rs) as [[_ H]|(l1 & x & l2 & _ & H1 & _ & _ & H2)];
    [by left|right; eauto].
Qed.

(** X2. On a route array without holes: when two or more routes have the
    home base path and some route has that path and the layout component,
    the route removed is the first such route in the array; the routes
    before it, and any later route with the same path and component, stay,
    and one route fewer has the home path. *)
Theorem routesLoaded_removes_first (self : Plugin) (rs : list RouteConfig) :
  1 < length (filter (λ r, path r = homePageDocsRoutePath self) rs) →
  (∃ r, r ∈ rs ∧ path r = homePageDocsRoutePath self
        ∧ component r = apiLayoutComponent (options self)) →
  ∃ l1 x l2,
    rs = l1 ++ x :: l2 ∧
    (∀ r, r ∈ l1 → ¬ (path r = homePageDocsRoutePath self
                      ∧ component r = apiLayoutComponent (options self))) ∧
    path x = homePageDocsRoutePath self ∧
    component x = apiLayoutComponent (options self) ∧
    routesLoaded self (dense rs) = Resolved (dense l1 ++ None :: dense l2) ∧
    S (length (filter (λ r, path r = homePageDocsRoutePath self) (l1 ++ l2)))
    = length (filter (λ r, path r = homePageDocsRoutePath self) rs).
Proof.
  intros Hmany (r & Hr & Hp & Hc).
  destruct (routesLoaded_dense_run self rs)
    as [[[Hfew|Hall] _]|(l1 & x & l2 & _ & -> & Hl1 & Hx & Hrun)].
  - done.
  - rewrite Forall_forall in Hall. specialize (Hall r Hr).
    apply is_docs_home_false in Hall. by destruct Hall.
  - apply is_docs_home_spec in Hx as [Hxc Hxp].
    exists l1, x, l2. repeat split; try done.
    + intros r' Hr'. rewrite Forall_forall in Hl1. by apply is_docs_home_false, Hl1.
    + rewrite !filter_app, filter_cons_True, !length_app by done. simpl. lia.
Qed.

(** X3. Running [routesLoaded] again on its own result changes nothing more
    when at most two routes had the home base path. *)
Theorem routesLoaded_twice (self : Plugin) (rs : list RouteConfig)
    (routes' : list (option RouteConfig)) :
  (length (filter (λ r, path r = homePageDocsRoutePath self) rs) ≤ 2)%nat →
  routesLoaded self (dense rs) = Resolved routes' →
  routesLoaded self routes' = Resolved routes'.
Proof.
  intros Hfew Hrun.
  destruct (routesLoaded_dense_run self rs)
    as [[_ H]|(l1 & x & l2 & _ & -> & _ & Hx & H)];
    rewrite H in Hrun; injection Hrun as <-; [done|].
  apply is_docs_home_spec in Hx as [_ Hxp].
  apply routesLoaded_single. rewrite home_count_hole.
  rewrite filter_app, filter_cons_True, length_app in Hfew by done.
  rewrite filter_app, length_app. simpl in Hfew. lia.
Qed.

(** X4. When three or more routes have the home base path and one of them
    has the layout component, a second run of [routesLoaded] on the result
    of the first rejects with a TypeError: the search reaches the hole the
    first run left before it reaches any other match. *)
Theorem routesLoaded_twice_rejects (self : Plugin) (rs : list RouteConfig) :
  2 < length (filter (λ r, path r = homePageDocsRoutePath self) rs) →
  (∃ r, r ∈ rs ∧ path r = homePageDocsRoutePath self
        ∧ component r = apiLayoutComponent (options self)) →
  ∃ routes',
    routesLoaded self (dense rs) = Resolved routes' ∧
    routesLoaded self routes'
    = Rejected (TypeError "Cannot read property 'component' of undefined").
Proof.
  intros Hmany (r & Hr & Hp & Hc).
  destruct (routesLoaded_dense_run self rs)
    as [[[Hfew|Hall] _]|(l1 & x & l2 & _ & -> & Hl1 & Hx & Hrun)].
  - lia.
  - rewrite Forall_forall in Hall. specialize (Hall r Hr).
    apply is_docs_home_false in Hall. by destruct Hall.
  - eexists. split; [done|].
    apply is_docs_home_spec in Hx as [_ Hxp].
    unfold routesLoaded. rewrite home_count_hole, decide_True.
    2:{ rewrite filter_app, filter_cons_True, length_app in Hmany by done.
        rewrite filter_app, length_app. simpl in Hmany. lia. }
    change (js_findIndex _ (dense l1 ++ None :: dense l2))
      with (js_findIndex_from (is_docs_home self) (dense l1 ++ None :: dense l2) 0).
    by rewrite js_findIndex_from_hole by (by apply dense_no_match).
Qed.

(** X5. On any array in which more than one route has the home base path
    and a hole comes before every route that has both that path and the
    layout component, [routesLoaded] rejects with a TypeError. *)
Theorem routesLoaded_hole_rejects (self : Plugin) (l1 l2 : list (option RouteConfig)) :
  1 < length (js_filter (λ r, bool_decide (path r = homePageDocsRoutePath self))
                        (l1 ++ None :: l2)) →
  (∀ r, Some r ∈ l1 → ¬ (path r = homePageDocsRoutePath self
                         ∧ component r = apiLayoutComponent (options self))) →
  routesLoaded self (l1 ++ None :: l2)
  = Rejected (TypeError "Cannot read property 'component' of undefined").
Proof.
  intros Hmany Hl1. unfold routesLoaded. rewrite decide_True by done.
  change (js_findIndex _ (l1 ++ None :: l2))
    with (js_findIndex_from (is_docs_home self) (l1 ++ None :: l2) 0).
  rewrite js_findIndex_from_first_hole; [done|].
  intros r Hr. by apply is_docs_home_false, Hl1.
Qed.

(** ** More on [contentLoaded]: any schedule, route shapes, sidebar *)

(** The run of [contentLoaded] on a non-empty content under any schedule. *)
Lemma contentLoaded_run_any (self : Plugin) (sched : list nat) (content : LoadedContent)
    (h : Host) :
  openapiData content ≠ [] →
  let pending := item_pending self <$> all_items content in
  let log :=
    created h ++ (item_json self <$> all_items content)
    ++ omap (λ i, (λ p, item_markdown self p.1) <$> pending !! i) sched in
  let apiBaseRoute := normalizeUrl [baseUrl (context self); routeBasePath (options self)] in
  let file := docuHash (normalizeUrl [apiBaseRoute; ":route"]) +:+ ".json" in
  contentLoaded self sched (Some content) h =
  match promise_all self pending (settle self pending ∅ sched) with
  | Some routes =>
      (Some (),
       {| created :=
            log ++ [(file,
                     JSON_stringify_metadata
                       {| docsSidebars := {[ "sidebar" := sidebar self (openapiData content) ]};
                          permalinkToSidebar := permalinkToSidebar_of routes |})];
          added :=
            added h
            ++ [{| path := if decide (apiBaseRoute = "/") then "" else apiBaseRoute;
                   component := apiLayoutComponent (options self);
                   exact := Some false;
                   routes := Some routes;
                   modules := [("docsMetadata", ModulePath (dataPath file))] |}] |})
  | None => (None, {| created := log; added := added h |})
  end.
Proof.
  intros Hne pending log apiBaseRoute file. unfold contentLoaded.
  rewrite decide_False by (by destruct (openapiData content)).
  fold (all_items content).
  unfold mbind at 1, M_bind at 1. rewrite mapM_item_begin.
  unfold mbind at 1, M_bind at 1. rewrite resume_all_run. fold pending.
  destruct (promise_all self pending _); simpl.
  - unfold mbind, M_bind, createData, addRoute, mret, M_ret. simpl.
    subst log. by rewrite <- !app_assoc.
  - unfold mret, M_ret. subst log. by rewrite <- !app_assoc.
Qed.

Lemma promise_all_pending (self : Plugin) (items : list ApiItem) (sched : list nat) (i : nat) :
  i < length items → i ∉ sched →
  promise_all self (item_pending self <$> items)
              (settle self (item_pending self <$> items) ∅ sched) = None.
Proof.
  intros Hi Hsched. apply eq_None_not_Some. intros Hsome.
  apply mapM_is_Some in Hsome. rewrite Forall_lookup in Hsome.
  destruct (lookup_lt_is_Some_2 items i Hi) as [item Hitem].
  specialize (Hsome i (i, item_pending self item)).
  rewrite list_lookup_imap, list_lookup_fmap, Hitem in Hsome. specialize (Hsome eq_refl).
  simpl in Hsome. rewrite settle_lookup, list_lookup_fmap, Hitem in Hsome. simpl in Hsome.
  rewrite decide_False, lookup_empty in Hsome by done. by destruct Hsome.
Qed.

Lemma pluginOpenAPI_routeBasePath (ctx : LoadContext) (opts : PartialOptions) :
  routeBasePath (options (pluginOpenAPI ctx opts)) = routeBasePath (merged opts).
Proof. unfold pluginOpenAPI. cbn [options]. by destruct (truthy (admonitions (merged opts))). Qed.

Lemma homePageDocsRoutePath_nonempty (ctx : LoadContext) (opts : PartialOptions) :
  homePageDocsRoutePath (pluginOpenAPI ctx opts) ≠ "".
Proof. unfold pluginOpenAPI. cbn [homePageDocsRoutePath]. by case_decide. Qed.

Lemma hole_lookup_ne {A} (l1 l2 : list A) (x : A) (i : nat) :
  i ≠ length l1 → (dense l1 ++ None :: dense l2) !! i = dense (l1 ++ x :: l2) !! i.
Proof.
  intros Hi. unfold dense. rewrite fmap_app, fmap_cons.
  destruct (decide (i < length l1)).
  - by rewrite !lookup_app_l by (by rewrite length_fmap).
  - rewrite !lookup_app_r by (rewrite length_fmap; lia). rewrite length_fmap.
    destruct (i - length l1) as [|m] eqn:E; [lia|done].
Qed.

Lemma sidebar_hrefs_sidebar (self : Plugin) (data : list ApiSection) :
  sidebar_hrefs (sidebar self data) = permalink <$> concat (map items data).
Proof.
  unfold sidebar_hrefs, sidebar. induction data as [|s data IH]; [done|].
  simpl. rewrite fmap_app, <- IH. f_equal.
  induction (items s) as [|item l IHl]; [done|]. simpl. by f_equal.
Qed.

(** X6. The route [contentLoaded] registers carries the layout component and
    [exact: false]; its path is the normalized base route, except that [/]
    is replaced by the empty string, so it is never [/]; its [docsMetadata]
    module is the path [createData] resolved with for the metadata artifact,
    the last one created; and every route nested in it carries the item
    component and [exact: true] and has no routes of its own. *)
Theorem contentLoaded_route_shapes (self : Plugin) (sched : list nat)
    (content : LoadedContent) (h : Host) :
  openapiData content ≠ [] →
  sched ≡ₚ seq 0 (length (all_items content)) →
  let h' := exec (contentLoaded self sched (Some content)) h in
  let apiBaseRoute := normalizeUrl [baseUrl (context self); routeBasePath (options self)] in
  let file := docuHash (normalizeUrl [apiBaseRoute; ":route"]) +:+ ".json" in
  ∃ aggregate item_routes metadata,
    added h' = added h ++ [aggregate] ∧
    component aggregate = apiLayoutComponent (options self) ∧
    exact aggregate = Some false ∧
    path aggregate = (if decide (apiBaseRoute = "/") then "" else apiBaseRoute) ∧
    path aggregate ≠ "/" ∧
    last (created h') = Some (file, metadata) ∧
    modules aggregate = [("docsMetadata", ModulePath (dataPath file))] ∧
    routes aggregate = Some item_routes ∧
    Forall (λ r, component r = apiItemComponent (options self)
                 ∧ exact r = Some true ∧ routes r = None) item_routes.
Proof.
  intros Hne Hsched h' apiBaseRoute file. subst h'. unfold exec.
  rewrite contentLoaded_run by done. simpl. fold apiBaseRoute. fold file.
  eexists _, _, _. repeat split.
  - by case_decide.
  - by rewrite !app_assoc, last_snoc.
  - apply Forall_fmap, Forall_forall. by intros item _.
Qed.

(** X7. When the normalized base route is [/], the route [contentLoaded]
    registers is mounted at the empty path, the home base path is never
    empty, and so [routesLoaded] leaves that route in its slot in every
    hole-free array that holds it. *)
Theorem root_aggregate_survives (ctx : LoadContext) (opts : PartialOptions)
    (sched : list nat) (content : LoadedContent) (h : Host) :
  let self := pluginOpenAPI ctx opts in
  normalizeUrl [baseUrl ctx; routeBasePath (merged opts)] = "/" →
  openapiData content ≠ [] →
  sched ≡ₚ seq 0 (length (all_items content)) →
  ∃ aggregate,
    added (exec (contentLoaded self sched (Some content)) h) = added h ++ [aggregate] ∧
    path aggregate = "" ∧
    homePageDocsRoutePath self ≠ "" ∧
    ∀ (rs : list RouteConfig) (i : nat),
      rs !! i = Some aggregate →
      ∃ routes', routesLoaded self (dense rs) = Resolved routes' ∧
                 routes' !! i = Some (Some aggregate).
Proof.
  intros self Hroot Hne Hsched. unfold exec.
  rewrite contentLoaded_run by done. cbn [snd added].
  eexists. split; [done|]. cbn [path].
  assert (Hbase : normalizeUrl [baseUrl (context self); routeBasePath (options self)] = "/").
  { subst self. by rewrite pluginOpenAPI_routeBasePath. }
  rewrite Hbase, decide_True by done.
  split; [done|]. split; [apply homePageDocsRoutePath_nonempty|].
  intros rs i Hi.
  destruct (routesLoaded_dense_run self rs)
    as [[_ Hrun]|(l1 & x & l2 & _ & -> & _ & Hx & Hrun)]; rewrite Hrun; eexists; (split; [done|]).
  - unfold dense. by rewrite list_lookup_fmap, Hi.
  - rewrite (hole_lookup_ne l1 l2 x).
    + unfold dense. by rewrite list_lookup_fmap, Hi.
    + intros ->. rewrite list_lookup_middle in Hi by done. injection Hi as ->.
      apply is_docs_home_spec in Hx as [_ Hx]. cbn [path] in Hx.
      symmetry in Hx. by apply homePageDocsRoutePath_nonempty in Hx.
Qed.

Lemma sidebar_labels (self : Plugin) (data : list ApiSection) :
  SidebarCategory.label <$> sidebar self data = title <$> data.
Proof. unfold sidebar. induction data as [|s data IH]; [done|]. simpl. by f_equal. Qed.

Lemma sidebar_categories (self : Plugin) (data : list ApiSection) :
  Forall (λ category, SidebarCategory.collapsed category = true
                      ∧ SidebarCategory.type category = "category") (sidebar self data).
Proof.
  apply Forall_forall. intros c Hc. apply list_elem_of_In, in_map_iff in Hc.
  by destruct Hc as (s & <- & _).
Qed.

Lemma sidebar_links (self : Plugin) (data : list ApiSection) :
  Forall (λ category,
            Forall (λ link, SidebarLink.type link = "link") (SidebarCategory.items category))
         (sidebar self data).
Proof.
  apply Forall_forall. intros c Hc. apply list_elem_of_In, in_map_iff in Hc.
  destruct Hc as (s & <- & _). simpl.
  apply Forall_forall. intros l Hl. apply list_elem_of_In, in_map_iff in Hl.
  by destruct Hl as (item & <- & _).
Qed.

(** X8. The sidebar serialized by a run of [contentLoaded] has one category
    per section, labelled with the section's title and collapsed, and its
    links, read category after category, point at the paths of the item
    routes in the same order. *)
Theorem sidebar_matches_routes (self : Plugin) (sched : list nat)
    (content : LoadedContent) (h : Host) :
  openapiData content ≠ [] →
  sched ≡ₚ seq 0 (length (all_items content)) →
  let h' := exec (contentLoaded self sched (Some content)) h in
  ∃ aggregate item_routes file sb lookup,
    added h' = added h ++ [aggregate] ∧
    routes aggregate = Some item_routes ∧
    last (created h') =
      Some (file, JSON_stringify_metadata
                    {| docsSidebars := {[ "sidebar" := sb ]};
                       permalinkToSidebar := lookup |}) ∧
    sidebar_hrefs sb = path <$> item_routes ∧
    SidebarCategory.label <$> sb = title <$> openapiData content ∧
    Forall (λ category, SidebarCategory.collapsed category = true
                        ∧ SidebarCategory.type category = "category") sb ∧
    Forall (λ category,
              Forall (λ link, SidebarLink.type link = "link") (SidebarCategory.items category))
           sb.
Proof.
  intros Hne Hsched h'. subst h'. unfold exec.
  rewrite contentLoaded_run by done. simpl.
  eexists _, _, _, _, _. split; [done|]. split; [done|].
  split; [by rewrite !app_assoc, last_snoc|].
  split; [by rewrite sidebar_hrefs_sidebar, item_settled_path|].
  split; [apply sidebar_labels|]. split; [apply sidebar_categories|apply sidebar_links].
Qed.

(** X9. The keys of the permalink-to-sidebar lookup serialized by a run of
    [contentLoaded] are exactly the hrefs of the sidebar serialized with it,
    the reserved key [__proto__] excepted. *)
Theorem lookup_covers_sidebar (self : Plugin) (sched : list nat)
    (content : LoadedContent) (h : Host) :
  openapiData content ≠ [] →
  sched ≡ₚ seq 0 (length (all_items content)) →
  let h' := exec (contentLoaded self sched (Some content)) h in
  ∃ file sb lookup,
    last (created h') =
      Some (file, JSON_stringify_metadata
                    {| docsSidebars := {[ "sidebar" := sb ]};
                       permalinkToSidebar := lookup |}) ∧
    ∀ k, is_Some (lookup !! k) ↔ k ∈ sidebar_hrefs sb ∧ k ≠ "__proto__".
Proof.
  intros Hne Hsched h'. subst h'. unfold exec.
  rewrite contentLoaded_run by done. simpl.
  eexists _, _, _. split; [by rewrite !app_assoc, last_snoc|].
  intros k. rewrite permalinkToSidebar_of_lookup, sidebar_hrefs_sidebar, item_settled_path.
  fold (all_items content). case_decide as H.
  - split; [intros _; by destruct H|]. by eexists.
  - split; [by intros [? ?]|]. intros [? ?]. by destruct H.
Qed.

(** X10. While the host has not resumed the closure of some item, the hook
    stays pending: no route is registered and no metadata artifact is
    created; the only artifacts requested are the items' JSON artifacts and
    description artifacts of items. *)
Theorem contentLoaded_pending (self : Plugin) (sched : list nat)
    (content : LoadedContent) (h : Host) (i : nat) :
  i < length (all_items content) →
  i ∉ sched →
  let r := contentLoaded self sched (Some content) h in
  let pageId (it : ApiItem) := "site-" +:+ routeBasePath (options self) +:+ "-" +:+ hashId it in
  r.1 = None ∧
  added r.2 = added h ∧
  ∃ rest,
    created r.2 =
      created h
      ++ ((λ it, (docuHash (pageId it) +:+ ".json", JSON_stringify_item it))
            <$> all_items content)
      ++ rest ∧
    Forall (λ fc, ∃ it, it ∈ all_items content ∧
                        fc = (docuHash (pageId it) +:+ "-description.md", description it))
           rest.
Proof.
  intros Hi Hsched r pageId. subst r.
  assert (Hne : openapiData content ≠ []).
  { intros E. unfold all_items in Hi. rewrite E in Hi. simpl in Hi. lia. }
  rewrite contentLoaded_run_any by done.
  rewrite (promise_all_pending self _ sched i) by done. simpl.
  split; [done|]. split; [done|]. eexists. split; [done|].
  apply Forall_forall. intros fc Hfc.
  apply list_elem_of_omap in Hfc as (j & _ & Hj).
  rewrite list_lookup_fmap in Hj.
  destruct (all_items content !! j) as [it|] eqn:Hit; simplify_eq/=.
  exists it. split; [by eapply list_elem_of_lookup_2|done].
Qed.

(** X11. Whatever the schedule, a run of [contentLoaded] keeps the host's
    earlier [createData] and [addRoute] records in place and appends to
    them, and the first artifacts it requests are the JSON artifacts of all
    items, in item order. *)
Theorem contentLoaded_json_first (self : Plugin) (sched : list nat)
    (content : LoadedContent) (h : Host) :
  let h' := exec (contentLoaded self sched (Some content)) h in
  let pageId (it : ApiItem) := "site-" +:+ routeBasePath (options self) +:+ "-" +:+ hashId it in
  ∃ rest more,
    created h' =
      created h
      ++ ((λ it, (docuHash (pageId it) +:+ ".json", JSON_stringify_item it))
            <$> all_items content)
      ++ rest ∧
    added h' = added h ++ more.
Proof.
  intros h' pageId. subst h'. unfold exec.
  destruct (decide (openapiData content = [])) as [E|Hne].
  - exists [], []. unfold contentLoaded, all_items. rewrite E. simpl.
    by rewrite !app_nil_r.
  - rewrite contentLoaded_run_any by done.
    destruct (promise_all _ _ _); simpl.
    + eexists _, _. split; [|done]. by rewrite <- !app_assoc.
    + eexists _, []. split; [done|]. by rewrite app_nil_r.
Qed.

(** X12. When the spec path is empty, or names no existing file, or the
    parser yields no section, the content [loadContent] resolves with makes
    [contentLoaded] return at once: nothing is created or registered. *)
Theorem no_spec_nothing_generated (self : Plugin) (sched : list nat) (h : Host) :
  openapiPath (options self) = ""
  ∨ existsSync (openapiPath (options self)) = false
  ∨ loadOpenapi (openapiPath (options self)) (baseUrl (context self))
                (routeBasePath (options self)) (options self) = Resolved [] →
  ∃ content, loadContent self = Resolved content ∧
             contentLoaded self sched content h = (Some (), h).
Proof.
  unfold loadContent. intros [E | [E | E]].
  - rewrite E. by exists None.
  - rewrite E, orb_true_r. by exists None.
  - destruct (_ || _); [by exists None|]. rewrite E. by eexists.
Qed.

(** X13. The rule [configureWebpack] contributes hands the mdx loader the
    user's remark plugins (none by default) followed, when the [admonitions]
    option is truthy, by the admonitions plugin with that option, and the
    user's rehype plugins (none by default) unchanged; the rule covers
    exactly the directory the [~api] alias points at, the generated-files
    directory joined with the plugin's name. *)
Theorem configureWebpack_loader (ctx : LoadContext) (opts : PartialOptions)
    (config : Configuration) (isServer : bool) (utils : ConfigureWebpackUtils) :
  let cfg := configureWebpack (pluginOpenAPI ctx opts) config isServer utils in
  let dir := path_join (generatedFilesDir ctx) "docusaurus-plugin-openapi" in
  let adm := default (JsObject []) (opt_admonitions opts) in
  resolve_alias cfg = [("~api", dir)] ∧
  ∃ rule,
    module_rules cfg = [rule] ∧
    include rule = [dir] ∧
    use rule =
      [getCacheLoader utils isServer;
       getBabelLoader utils isServer;
       LoaderWithOptions
         (require_resolve "@docusaurus/mdx-loader")
         (default [] (opt_remarkPlugins opts)
          ++ (if truthy adm then [PluginWith admonitions_plugin adm] else []))
         (default [] (opt_rehypePlugins opts))].
Proof.
  intros cfg dir adm. subst cfg. unfold configureWebpack, dataDir, pluginOpenAPI.
  cbn [context name options generatedFilesDir resolve_alias module_rules].
  split; [done|]. eexists. split; [done|]. split; [done|].
  cbn [use]. change (admonitions (merged opts)) with adm.
  destruct (truthy adm); cbn; [done|]. by rewrite app_nil_r.
Qed.

End Hooks.

(** ** The statements on the sample site *)

Import Sample.



Lemma routesLoaded_delete_leaves_hole_witness :
  routesLoaded self (dense [blog; page; layout]) = Resolved [Some blog; Some page; None]
  ∧ length [Some blog; Some page; (None : option RouteConfig)] = 3
  ∧ ∃ i r, dense [blog; page; layout] !! i = Some (Some r) ∧
           component r = "@theme/ApiPage" ∧ path r = "/api" ∧
           [Some blog; Some page; None] !! i = Some None ∧
           ∀ j, j ≠ i → [Some blog; Some page; None] !! j = dense [blog; page; layout] !! j.
Proof.
  assert (Hrun : routesLoaded self (dense [blog; page; layout])
                 = Resolved [Some blog; Some page; None]) by (vm_compute; reflexivity).
  split; [exact Hrun|].
  apply (routesLoaded_delete_leaves_hole self _ _ Hrun). discriminate.
Defined.




(** With [admonitions: false] the merged record is the one the hooks see,
    and no stylesheet is requested. *)
Example admonitions_disabled :
  options (pluginOpenAPI ctx plain_opts) = merged plain_opts
  ∧ getClientModules require_resolve (pluginOpenAPI ctx plain_opts) = [].
Proof. split; reflexivity. Qed.

(** A hole left by an earlier [delete] is read as [undefined] by the search. *)
Example routesLoaded_hole :
  routesLoaded self [None; Some page; Some layout]
  = Rejected (TypeError "Cannot read property 'component' of undefined").
Proof. vm_compute. reflexivity. Qed.

(** C2 is refuted by the default configuration: the merged record holds the
    empty [remarkPlugins] list, the record the hooks see holds the
    admonitions entry. *)
Lemma options_after_merge_counterexample :
  remarkPlugins (merged no_options) = []
  ∧ remarkPlugins (options (pluginOpenAPI ctx no_options))
    = [PluginWith admonitions_plugin (JsObject [])]
  ∧ options (pluginOpenAPI ctx no_options) ≠ merged no_options.
Proof. split; [done|]. split; [done|]. discriminate. Qed.

Lemma loadContent_no_content_witness :
  loadContent existsSync loadOpenapi (pluginOpenAPI ctx no_options) = Resolved None
  ∧ loadContent existsSync loadOpenapi self = Resolved (Some content).
Proof.
  split.
  - apply (proj1 (loadContent_no_content existsSync loadOpenapi (pluginOpenAPI ctx no_options))).
    left. reflexivity.
  - apply (proj2 (loadContent_no_content existsSync loadOpenapi self)).
    + discriminate.
    + vm_compute. reflexivity.
Defined.

(** C3 is refuted by a content of zero sections: no aggregate route. *)
Lemma contentLoaded_counts_counterexample :
  let h' := exec (contentLoaded docuHash normalizeUrl JSON_stringify_item
                                JSON_stringify_metadata dataPath self [] (Some empty)) host in
  [] ≡ₚ seq 0 (length (all_items empty))
  ∧ ¬ ∃ aggregate, added h' = added host ++ [aggregate].
Proof. split; [done|]. intros [aggregate H]. discriminate H. Qed.

Lemma contentLoaded_counts_witness :
  let h' := exec (contentLoaded docuHash normalizeUrl JSON_stringify_item
                                JSON_stringify_metadata dataPath self [2; 0; 1] (Some content))
                 host in
  ∃ aggregate item_routes file,
    added h' = added host ++ [aggregate] ∧
    routes aggregate = Some item_routes ∧
    path <$> item_routes = ["/api/list-pets"; "/api/create-pet"; "/api/get-owner"] ∧
    length item_routes = sum_list [2; 1] ∧
    last (created h') =
      Some (file,
            JSON_stringify_metadata
              {| docsSidebars := {[ "sidebar" := sidebar self (openapiData content) ]};
                 permalinkToSidebar := permalinkToSidebar_of item_routes |}) ∧
    length (sidebar self (openapiData content)) = 2 ∧
    (length ∘ SidebarCategory.items) <$> sidebar self (openapiData content) = [2; 1].
Proof.
  apply (contentLoaded_counts docuHash normalizeUrl JSON_stringify_item
                              JSON_stringify_metadata dataPath self [2; 0; 1] content host).
  - discriminate.
  - apply (Permutation_cons_append [0; 1] 2).
Defined.

(** C4 is refuted by two operations sharing a permalink (two item routes, one
    key) and by an operation whose permalink is [__proto__] (one item route,
    no key). *)
Lemma permalinkToSidebar_entries_counterexample :
  (let h' := exec (contentLoaded docuHash normalizeUrl JSON_stringify_item
                                 JSON_stringify_metadata dataPath self [1; 0] (Some clashing))
                  host in
   ∃ aggregate item_routes,
     added h' = [aggregate] ∧ routes aggregate = Some item_routes ∧
     length item_routes = 2 ∧ size (permalinkToSidebar_of item_routes) = 1)
  ∧ (let h' := exec (contentLoaded docuHash normalizeUrl JSON_stringify_item
                                   JSON_stringify_metadata dataPath self [0] (Some reserved))
                    host in
     ∃ aggregate item_routes,
       added h' = [aggregate] ∧ routes aggregate = Some item_routes ∧
       length item_routes = 1 ∧ size (permalinkToSidebar_of item_routes) = 0).
Proof.
  split; simpl; eexists _, _;
    (split; [vm_compute; reflexivity|]); (split; [reflexivity|]);
    split; vm_compute; reflexivity.
Qed.

Lemma permalinkToSidebar_entries_witness :
  let h' := exec (contentLoaded docuHash normalizeUrl JSON_stringify_item
                                JSON_stringify_metadata dataPath self [2; 0; 1] (Some content))
                 host in
  ∃ aggregate item_routes file sidebars lookup,
    added h' = added host ++ [aggregate] ∧
    routes aggregate = Some item_routes ∧
    last (created h') =
      Some (file, JSON_stringify_metadata
                    {| docsSidebars := sidebars; permalinkToSidebar := lookup |}) ∧
    lookup = permalinkToSidebar_of item_routes ∧
    (∀ k v, lookup !! k = Some v → v = "sidebar" ∧ ∃ r, r ∈ item_routes ∧ path r = k) ∧
    (∀ r, r ∈ item_routes → path r ≠ "__proto__" → lookup !! path r = Some "sidebar") ∧
    (NoDup (permalink <$> all_items content) →
     "__proto__" ∉ permalink <$> all_items content →
     size lookup = length item_routes).
Proof.
  apply (permalinkToSidebar_entries docuHash normalizeUrl JSON_stringify_item
                                    JSON_stringify_metadata dataPath self [2; 0; 1] content host).
  - discriminate.
  - apply (Permutation_cons_append [0; 1] 2).
Defined.

Lemma contentLoaded_item_artifacts_witness :
  let h' := exec (contentLoaded docuHash normalizeUrl JSON_stringify_item
                                JSON_stringify_metadata dataPath self [2; 0; 1] (Some content))
                 host in
  let pageId (it : ApiItem) := "site-/api-" +:+ hashId it in
  let json (it : ApiItem) := docuHash (pageId it) +:+ ".json" in
  let markdown (it : ApiItem) := docuHash (pageId it) +:+ "-description.md" in
  ∃ aggregate item_routes metadata route,
    created h' ≡ₚ
      created host
      ++ ([listPets; createPet; getOwner] ≫=
            λ it, [(json it, JSON_stringify_item it); (markdown it, description it)])
      ++ [metadata] ∧
    added h' = added host ++ [aggregate] ∧
    routes aggregate = Some item_routes ∧
    item_routes !! 1 = Some route ∧
    path route = "/api/create-pet" ∧
    modules route = [("openapi", ModulePath "~api/h-site-/api-create-pet.json");
                     ("content", ModuleObject true "~api/h-site-/api-create-pet-description.md")].
Proof.
  apply (contentLoaded_item_artifacts docuHash normalizeUrl JSON_stringify_item
                                      JSON_stringify_metadata dataPath self [2; 0; 1] content
                                      host 1 createPet).
  - reflexivity.
  - apply (Permutation_cons_append [0; 1] 2).
Defined.

(** ** The further statements on the sample site *)

(** Three routes at [/api], two of them layout routes: the first goes. *)
Lemma routesLoaded_removes_first_witness :
  1 < length (filter (λ r, path r = "/api") [blog; page; layout; second_layout])
  ∧ ∃ l1 x l2,
      [blog; page; layout; second_layout] = l1 ++ x :: l2 ∧
      (∀ r, r ∈ l1 → ¬ (path r = "/api" ∧ component r = "@theme/ApiPage")) ∧
      path x = "/api" ∧
      component x = "@theme/ApiPage" ∧
      routesLoaded self (dense [blog; page; layout; second_layout])
      = Resolved (dense l1 ++ None :: dense l2) ∧
      S (length (filter (λ r, path r = "/api") (l1 ++ l2)))
      = length (filter (λ r, path r = "/api") [blog; page; layout; second_layout]).
Proof.
  split; [vm_compute; lia|].
  apply (routesLoaded_removes_first self [blog; page; layout; second_layout]).
  - vm_compute. lia.
  - exists layout. split; [|split; reflexivity]. repeat constructor.
Defined.

Lemma routesLoaded_twice_witness :
  routesLoaded self (dense [blog; page; layout]) = Resolved [Some blog; Some page; None]
  ∧ routesLoaded self [Some blog; Some page; None] = Resolved [Some blog; Some page; None].
Proof.
  assert (Hrun : routesLoaded self (dense [blog; page; layout])
                 = Resolved [Some blog; Some page; None]) by (vm_compute; reflexivity).
  split; [exact Hrun|].
  apply (routesLoaded_twice self [blog; page; layout] _); [vm_compute; lia|exact Hrun].
Defined.

Lemma routesLoaded_twice_rejects_witness :
  2 < length (filter (λ r, path r = "/api") [page; layout; other_page])
  ∧ ∃ routes',
      routesLoaded self (dense [page; layout; other_page]) = Resolved routes' ∧
      routesLoaded self routes'
      = Rejected (TypeError "Cannot read property 'component' of undefined").
Proof.
  split; [vm_compute; lia|].
  apply (routesLoaded_twice_rejects self [page; layout; other_page]).
  - vm_compute. lia.
  - exists layout. split; [|split; reflexivity]. repeat constructor.
Defined.

Lemma routesLoaded_hole_rejects_witness :
  routesLoaded self ([Some page] ++ None :: [Some layout; Some other_page])
  = Rejected (TypeError "Cannot read property 'component' of undefined").
Proof.
  apply (routesLoaded_hole_rejects self [Some page] [Some layout; Some other_page]).
  - vm_compute. lia.
  - intros r Hr [_ Hc]. apply list_elem_of_In in Hr. simpl in Hr.
    destruct Hr as [[= <-] | []]. discriminate Hc.
Defined.

Lemma contentLoaded_route_shapes_witness :
  let h' := exec (contentLoaded docuHash normalizeUrl_collapsing JSON_stringify_item
                                JSON_stringify_metadata dataPath self [2; 0; 1] (Some content))
                 host in
  let file := "h-/api/:route.json" in
  ∃ aggregate item_routes metadata,
    added h' = added host ++ [aggregate] ∧
    component aggregate = "@theme/ApiPage" ∧
    exact aggregate = Some false ∧
    path aggregate = "/api" ∧
    path aggregate ≠ "/" ∧
    last (created h') = Some (file, metadata) ∧
    modules aggregate = [("docsMetadata", ModulePath (dataPath file))] ∧
    routes aggregate = Some item_routes ∧
    Forall (λ r, component r = "@theme/ApiItem" ∧ exact r = Some true ∧ routes r = None)
           item_routes.
Proof.
  apply (contentLoaded_route_shapes docuHash normalizeUrl_collapsing JSON_stringify_item
                                    JSON_stringify_metadata dataPath self [2; 0; 1] content host).
  - discriminate.
  - apply (Permutation_cons_append [0; 1] 2).
Defined.

(** Mounted at the root: the aggregate route sits at the empty path and
    survives next to the site's index page. *)
Lemma root_aggregate_survives_witness :
  normalizeUrl_collapsing [baseUrl ctx; routeBasePath (merged root_opts)] = "/"
  ∧ ∃ aggregate,
      added (exec (contentLoaded docuHash normalizeUrl_collapsing JSON_stringify_item
                                 JSON_stringify_metadata dataPath root [2; 0; 1] (Some content))
                  host)
      = added host ++ [aggregate] ∧
      path aggregate = "" ∧
      homePageDocsRoutePath root ≠ "" ∧
      ∀ (rs : list RouteConfig) (i : nat),
        rs !! i = Some aggregate →
        ∃ routes', routesLoaded root (dense rs) = Resolved routes' ∧
                   routes' !! i = Some (Some aggregate).
Proof.
  split; [vm_compute; reflexivity|].
  apply (root_aggregate_survives docuHash normalizeUrl_collapsing JSON_stringify_item
                                 JSON_stringify_metadata dataPath ctx root_opts [2; 0; 1]
                                 content host).
  - vm_compute. reflexivity.
  - discriminate.
  - apply (Permutation_cons_append [0; 1] 2).
Defined.

Lemma sidebar_matches_routes_witness :
  let h' := exec (contentLoaded docuHash normalizeUrl JSON_stringify_item
                                JSON_stringify_metadata dataPath self [2; 0; 1] (Some content))
                 host in
  ∃ aggregate item_routes file sb lookup,
    added h' = added host ++ [aggregate] ∧
    routes aggregate = Some item_routes ∧
    last (created h') =
      Some (file, JSON_stringify_metadata
                    {| docsSidebars := {[ "sidebar" := sb ]};
                       permalinkToSidebar := lookup |}) ∧
    sidebar_hrefs sb = path <$> item_routes ∧
    SidebarCategory.label <$> sb = ["Pets"; "Owners"] ∧
    Forall (λ category, SidebarCategory.collapsed category = true
                        ∧ SidebarCategory.type category = "category") sb ∧
    Forall (λ category,
              Forall (λ link, SidebarLink.type link = "link") (SidebarCategory.items category))
           sb.
Proof.
  apply (sidebar_matches_routes docuHash normalizeUrl JSON_stringify_item
                                JSON_stringify_metadata dataPath self [2; 0; 1] content host).
  - discriminate.
  - apply (Permutation_cons_append [0; 1] 2).
Defined.

Lemma lookup_covers_sidebar_witness :
  let h' := exec (contentLoaded docuHash normalizeUrl JSON_stringify_item
                                JSON_stringify_metadata dataPath self [2; 0; 1] (Some content))
                 host in
  ∃ file sb lookup,
    last (created h') =
      Some (file, JSON_stringify_metadata
                    {| docsSidebars := {[ "sidebar" := sb ]};
                       permalinkToSidebar := lookup |}) ∧
    ∀ k, is_Some (lookup !! k) ↔ k ∈ sidebar_hrefs sb ∧ k ≠ "__proto__".
Proof.
  apply (lookup_covers_sidebar docuHash normalizeUrl JSON_stringify_item
                               JSON_stringify_metadata dataPath self [2; 0; 1] content host).
  - discriminate.
  - apply (Permutation_cons_append [0; 1] 2).
Defined.

(** The closure of the third item is never resumed. *)
Lemma contentLoaded_pending_witness :
  let r := contentLoaded docuHash normalizeUrl JSON_stringify_item
                         JSON_stringify_metadata dataPath self [1; 0] (Some content) host in
  let pageId (it : ApiItem) := "site-/api-" +:+ hashId it in
  r.1 = None ∧
  added r.2 = added host ∧
  ∃ rest,
    created r.2 =
      created host
      ++ ((λ it, (docuHash (pageId it) +:+ ".json", JSON_stringify_item it))
            <$> [listPets; createPet; getOwner])
      ++ rest ∧
    Forall (λ fc, ∃ it, it ∈ [listPets; createPet; getOwner] ∧
                        fc = (docuHash (pageId it) +:+ "-description.md", description it))
           rest.
Proof.
  apply (contentLoaded_pending docuHash normalizeUrl JSON_stringify_item
                               JSON_stringify_metadata dataPath self [1; 0] content host 2).
  - vm_compute. lia.
  - intros Hin. apply list_elem_of_In in Hin. simpl in Hin.
    destruct Hin as [H | [H | []]]; discriminate H.
Defined.

(** Nothing configured: the spec path is empty and nothing is generated. *)
Lemma no_spec_nothing_generated_witness :
  ∃ c, loadContent existsSync loadOpenapi (pluginOpenAPI ctx no_options) = Resolved c ∧
       contentLoaded docuHash normalizeUrl JSON_stringify_item JSON_stringify_metadata
                     dataPath (pluginOpenAPI ctx no_options) [] c host
       = (Some (), host).
Proof.
  apply (no_spec_nothing_generated docuHash normalizeUrl JSON_stringify_item
                                   JSON_stringify_metadata dataPath existsSync loadOpenapi
                                   (pluginOpenAPI ctx no_options) [] host).
  left. reflexivity.
Defined.
